(** * Kupfer plugins for Hamster, Hotot and MPRIS2 media players

    A shallow embedding of [hamster.py], [hotot.py] and [media_players.py].
    The plugins talk to the session bus, print debug lines and (for the
    media players) keep one module-level registry.  All of that is made
    explicit: a [World] carries the bus as the plugins find it, the list
    of everything they did to it, and the registry's table; a plugin
    function is a state transformer that returns a value or raises. *)

From Stdlib Require Import ZArith PrimFloat Uint63 Ascii String List.
From stdpp Require Import gmap strings list.

Open Scope string_scope.

(** ** Python values and exceptions *)

Inductive exn : Type :=
  | DBusException (msg : string)
  | AttributeError (msg : string)
  | KeyError (key : string)
  | NotImplementedError (msg : string).

Inductive Result (A : Type) : Type :=
  | Ok (a : A)
  | Raise (e : exn).
Arguments Ok {A} a.
Arguments Raise {A} e.

(** [dbus.proxies.ProxyObject]: what [bus.get_object(name, path)] returns. *)
Record Proxy : Type := { bus_name : string; object_path : string }.

(** [dbus.Interface(obj, dbus_interface=...)]. *)
Record Interface : Type := { iface_obj : Proxy; dbus_interface : string }.

(** The wrapper class of [media_players.py]. *)
Record MediaPlayer : Type := { _dbus_obj : Proxy }.

(** Arguments of a remote call.  Python floats are IEEE doubles. *)
Inductive Arg : Type :=
  | AStr (s : string)
  | AFloat (f : float)
  | AInt (z : Z)
  | ABool (b : bool).

(** Arguments of [pretty.print_debug].  [ModuleName] is [__name__];
    [Registered n p] is the text ["registered player: %s (%s)" % (n, p)]. *)
Inductive LogArg : Type :=
  | ModuleName
  | Text (s : string)
  | Err (e : exn)
  | Registered (n : string) (p : MediaPlayer).

(** Everything a plugin does that is visible outside it. *)
Inductive Event : Type :=
  | EvSessionBus
  | EvGetObject (name path : string)
  | EvCall (i : Interface) (method : string) (args : list Arg)
  | EvDebug (args : list LogArg)
  | EvSignalConnect (signal iface : string).

(** The session bus as one plugin call finds it.  [None] in an error field
    means the operation succeeds, [Some msg] that it raises
    [DBusException msg]. *)
Record Bus : Type := {
  session_bus_error : option string;
  get_object_error : string -> string -> option string;
  call_error : Interface -> string -> list Arg -> option string;
  list_names : list string;
  properties : Proxy -> string -> string -> string;
  activities : list (string * string);
  clock : float;
  timezone : Z
}.

Record World : Type := {
  bus : Bus;
  events : list Event;
  active_players : gmap string MediaPlayer
}.

(** ** The effect monad *)

Definition M (A : Type) : Type := World -> Result A * World.

Definition ret {A} (a : A) : M A := fun w => (Ok a, w).

Definition raise {A} (e : exn) : M A := fun w => (Raise e, w).

Definition bind {A B} (m : M A) (k : A -> M B) : M B :=
  fun w => match m w with
           | (Ok a, w') => k a w'
           | (Raise e, w') => (Raise e, w')
           end.

Notation "x <- m ;; k" := (bind m (fun x => k))
  (at level 100, m at next level, right associativity).
Notation "m ;;; k" := (bind m (fun _ => k))
  (at level 100, right associativity).

(** [try: body except dbus.exceptions.DBusException, err: handler]. *)
Definition try_except_DBusException {A} (body : M A) (handler : exn -> M A) : M A :=
  fun w => match body w with
           | (Raise (DBusException msg), w') => handler (DBusException msg) w'
           | r => r
           end.

Fixpoint for_each {A} (l : list A) (body : A -> M unit) : M unit :=
  match l with
  | [] => ret tt
  | x :: l' => body x ;;; for_each l' body
  end.

Fixpoint map_M {A B} (f : A -> M B) (l : list A) : M (list B) :=
  match l with
  | [] => ret []
  | x :: l' => y <- f x ;; ys <- map_M f l' ;; ret (y :: ys)
  end.

Definition record (e : Event) : M unit :=
  fun w => (Ok tt, {| bus := bus w; events := events w ++ [e];
                      active_players := active_players w |}).

Definition fail_if (err : option string) : M unit :=
  match err with
  | Some msg => raise (DBusException msg)
  | None => ret tt
  end.

(** ** The parts of dbus, time and kupfer the plugins use *)

Definition print_debug (args : list LogArg) : M unit := record (EvDebug args).

Definition SessionBus : M unit :=
  record EvSessionBus ;;;
  fun w => fail_if (session_bus_error (bus w)) w.

Definition get_object (name path : string) : M Proxy :=
  record (EvGetObject name path) ;;;
  (fun w => fail_if (get_object_error (bus w) name path) w) ;;;
  ret {| bus_name := name; object_path := path |}.

Definition dbus_Interface (obj : Proxy) (iface : string) : Interface :=
  {| iface_obj := obj; dbus_interface := iface |}.

(** A remote method call: it is sent, then the peer's failure, if any,
    comes back as a [DBusException]. *)
Definition remote (i : Interface) (method : string) (args : list Arg) : M unit :=
  record (EvCall i method args) ;;;
  fun w => fail_if (call_error (bus w) i method args) w.

(** Attribute lookup on the value of a connection helper: an interface
    answers to every method name, [None] to none. *)
Definition getattr (o : option Interface) (name : string) : M (list Arg -> M unit) :=
  match o with
  | Some i => ret (remote i name)
  | None => raise (AttributeError ("'NoneType' object has no attribute '" ++ name ++ "'"))
  end.

Definition time_time : M float := fun w => (Ok (clock (bus w)), w).

Definition time_timezone : M Z := fun w => (Ok (timezone (bus w)), w).

(** Python's [float - int]: the integer is converted to a double first. *)
Definition float_of_int (z : Z) : float :=
  if (z <? 0)%Z then PrimFloat.opp (PrimFloat.of_uint63 (Uint63.of_Z (- z)))
  else PrimFloat.of_uint63 (Uint63.of_Z z).

Definition float_sub_int (x : float) (z : Z) : float :=
  PrimFloat.sub x (float_of_int z).

(** [s.startswith(p)]. *)
Definition startswith (s p : string) : bool := String.prefix p s.

(** [s.replace(old, new)]: every non-overlapping occurrence, left to right. *)
Fixpoint replace_from (old new : string) (skip : nat) (s : string) : string :=
  match s with
  | EmptyString => EmptyString
  | String c s' =>
      match skip with
      | S k => replace_from old new k s'
      | O => if String.prefix old s
             then new ++ replace_from old new (String.length old - 1) s'
             else String c (replace_from old new 0 s')
      end
  end.

Fixpoint intersperse_str (new s : string) : string :=
  match s with
  | EmptyString => new
  | String c s' => new ++ String c (intersperse_str new s')
  end.

Definition str_replace (s old new : string) : string :=
  match old with
  | EmptyString => intersperse_str new s
  | _ => replace_from old new 0 s
  end.

(** Truth value of a string and of [x != None]. *)
Definition truthy (s : string) : bool :=
  match s with EmptyString => false | _ => true end.

Definition is_not_None {A} (o : option A) : bool :=
  match o with Some _ => true | None => false end.

(** A remote call whose reply the plugin reads. *)
Definition reply_of {A} (call : M unit) (reply : Bus -> A) : M A :=
  call ;;; fun w => (Ok (reply (bus w)), w).

(** kupfer's [Leaf(obj, name)] for leaves whose object is a string
    ([TextLeaf], [ActivityLeaf]) and the two things the plugins read from
    an [AppLeaf]: [item.get_id()] and [item.name]. *)
Module Kupfer.
Record Leaf : Type := { object : string; name : string }.
Record AppLeaf : Type := { get_id : string; app_name : string }.
End Kupfer.

(** ** hamster.py *)

Module Hamster.

Definition HAMSTER_APPNAMES : list string :=
  ["hamster-indicator"; "hamster-time-tracker"].

Definition get_hamster : M (option Interface) :=
  try_except_DBusException
    (SessionBus ;;;
     dbusObj <- get_object "org.gnome.Hamster" "/org/gnome/Hamster" ;;
     ret (Some (dbus_Interface dbusObj "org.gnome.Hamster")))
    (fun err => print_debug [Err err] ;;; ret None).

Module Toggle.
Definition valid_for_item (item : Kupfer.AppLeaf) : M bool :=
  if bool_decide (Kupfer.get_id item ∈ HAMSTER_APPNAMES)
  then hamster <- get_hamster ;; ret (is_not_None hamster)
  else ret false.

Definition activate (leaf : Kupfer.AppLeaf) : M unit :=
  hamster <- get_hamster ;;
  Toggle <- getattr hamster "Toggle" ;;
  Toggle [].
End Toggle.

Module StartActivity.
Definition activate (leaf : Kupfer.Leaf) : M unit :=
  hamster <- get_hamster ;;
  AddFact <- getattr hamster "AddFact" ;;
  now <- time_time ;;
  tz <- time_timezone ;;
  AddFact [AStr (Kupfer.object leaf); AFloat (float_sub_int now tz); AInt 0; ABool false].
End StartActivity.

Module StopTrackingLeaf.
Definition run : M unit :=
  hamster <- get_hamster ;;
  StopTracking <- getattr hamster "StopTracking" ;;
  now <- time_time ;;
  tz <- time_timezone ;;
  StopTracking [AFloat (float_sub_int now tz)].
End StopTrackingLeaf.

Definition ActivityLeaf (activity : string) : Kupfer.Leaf :=
  {| Kupfer.object := activity; Kupfer.name := activity |}.

Module ActivitiesSource.
(** The body of the [for] loop: one leaf per record. *)
Definition leaf_of (act : string * string) : Kupfer.Leaf :=
  let activity := fst act in
  let activity := if truthy (snd act) then activity ++ "@" ++ snd act else activity in
  ActivityLeaf activity.

(** The generator, run to its end. *)
Definition get_items : M (list Kupfer.Leaf) :=
  hamster <- get_hamster ;;
  GetActivities <- getattr hamster "GetActivities" ;;
  acts <- reply_of (GetActivities [AStr ""]) activities ;;
  ret (map leaf_of acts).
End ActivitiesSource.

End Hamster.

(** ** hotot.py *)

Module Hotot.

Definition get_hotot : M (option Interface) :=
  try_except_DBusException
    (SessionBus ;;;
     dbusObj <- get_object "org.hotot.service" "/org/hotot/service" ;;
     ret (Some (dbus_Interface dbusObj "org.hotot.service")))
    (fun err => print_debug [Err err] ;;; ret None).

(** The two string literals of [leaf.object.replace]: a double quote, and
    a backslash followed by a double quote. *)
Definition double_quote : string := String "034"%char EmptyString.
Definition escaped_quote : string := String "092"%char double_quote.

Module SendUpdate.
Definition activate (leaf : Kupfer.Leaf) : M unit :=
  print_debug [ModuleName; Text (Kupfer.object leaf)] ;;;
  let text := str_replace (Kupfer.object leaf) double_quote escaped_quote in
  print_debug [ModuleName; Text ("SendUpdate: " ++ text)] ;;;
  hotot <- get_hotot ;;
  update_status <- getattr hotot "update_status" ;;
  update_status [AStr text].

Definition valid_for_item (item : Kupfer.Leaf) : M bool :=
  hotot <- get_hotot ;; ret (is_not_None hotot).
End SendUpdate.

Record HototAction : Type := {
  action : string;
  func : option Interface -> M unit
}.

Module HototAction.
Definition activate (self : HototAction) (leaf : Kupfer.AppLeaf) : M unit :=
  hotot <- get_hotot ;; func self hotot.

Definition valid_for_item (self : HototAction) (item : Kupfer.AppLeaf) : M bool :=
  if String.eqb (Kupfer.app_name item) "Hotot"
  then hotot <- get_hotot ;; ret (is_not_None hotot)
  else ret false.
End HototAction.

Definition Show : HototAction :=
  {| action := "Show"; func := fun hotot => show <- getattr hotot "show" ;; show [] |}.

Definition Hide : HototAction :=
  {| action := "Hide"; func := fun hotot => hide <- getattr hotot "hide" ;; hide [] |}.

Definition Quit : HototAction :=
  {| action := "Quit"; func := fun hotot => quit <- getattr hotot "quit" ;; quit [] |}.

End Hotot.

(** ** media_players.py *)

Module MediaPlayers.

(** The properties and methods of class [MediaPlayer]. *)
Definition root (self : MediaPlayer) : Interface :=
  dbus_Interface (_dbus_obj self) "org.mpris.MediaPlayer2".

Definition player (self : MediaPlayer) : Interface :=
  dbus_Interface (_dbus_obj self) "org.mpris.MediaPlayer2.Player".

Definition _get_property (self : MediaPlayer) (target property_name : string) : M string :=
  let properties_manager :=
    dbus_Interface (_dbus_obj self) "org.freedesktop.DBus.Properties" in
  reply_of (remote properties_manager "Get" [AStr target; AStr property_name])
           (fun b => properties b (_dbus_obj self) target property_name).

Definition get_player_property (self : MediaPlayer) (property_name : string) : M string :=
  _get_property self "org.mpris.MediaPlayer2.Player" property_name.

Definition get_root_property (self : MediaPlayer) (property_name : string) : M string :=
  _get_property self "org.mpris.MediaPlayer2" property_name.

Definition name (self : MediaPlayer) : M string :=
  get_root_property self "DesktopEntry".

(** Class [MediaPlayersRegistry]; its one instance is the module-level
    [media_players_registry], whose [active_players] dict is the table
    in the [World]. *)
Definition set_active_players (m : gmap string MediaPlayer) : M unit :=
  fun w => (Ok tt, {| bus := bus w; events := events w; active_players := m |}).

Definition setitem (key : string) (value : MediaPlayer) : M unit :=
  fun w => (Ok tt, {| bus := bus w; events := events w;
                      active_players := <[key := value]> (active_players w) |}).

Definition ListNames (dbusObj : Proxy) : M (list string) :=
  reply_of (remote (dbus_Interface dbusObj "org.freedesktop.DBus") "ListNames" [])
           list_names.

(** The body of the [for name in ...] loop of [reindex]. *)
Definition register (name_ : string) : M unit :=
  if startswith name_ "org.mpris.MediaPlayer2." then
    print_debug [ModuleName; Text ("discovered player: " ++ name_)] ;;;
    dbus_obj <- get_object name_ "/org/mpris/MediaPlayer2" ;;
    let player := {| _dbus_obj := dbus_obj |} in
    key <- name player ;;
    setitem key player ;;;
    shown <- name player ;;
    print_debug [ModuleName; Registered shown player]
  else ret tt.

Definition reindex : M unit :=
  set_active_players ∅ ;;;
  SessionBus ;;;
  dbusObj <- get_object "org.freedesktop.DBus" "/" ;;
  names <- ListNames dbusObj ;;
  for_each names register.

(** [dbus.Bus()]: the session bus again, that being its default type. *)
Definition dbus_Bus : M unit := SessionBus.

Definition _setup_monitor : M unit :=
  dbus_Bus ;;;
  record (EvSignalConnect "NameOwnerChanged" "org.freedesktop.DBus").

Definition __init__ : M unit :=
  reindex ;;; _setup_monitor.

Definition _signal_update (args : list string) : M unit :=
  if (0 <? length args)%nat && startswith (nth 0 args "") "org.mpris.MediaPlayer2."
  then reindex
  else ret tt.

(** Iterating the dict yields its keys. *)
Definition players : M (list string) :=
  fun w => (Ok (map fst (map_to_list (active_players w))), w).

Definition get_player (name_ : string) : M MediaPlayer :=
  fun w => match active_players w !! name_ with
           | Some p => (Ok p, w)
           | None => (Raise (KeyError name_), w)
           end.

(** The command leaves.  [MediaPlayerCommandLeaf] is the base class, whose
    [do_command] only raises. *)
Inductive MediaPlayerCommandLeaf : Type :=
  | BaseCommandLeaf
  | PlayPause
  | Play
  | Stop
  | Pause
  | Next
  | Previous
  | Quit.

Definition do_command (leaf : MediaPlayerCommandLeaf) (p : MediaPlayer) : M unit :=
  match leaf with
  | BaseCommandLeaf =>
      raise (NotImplementedError "Subclasses should implement this method")
  | PlayPause => remote (player p) "PlayPause" []
  | Play => remote (player p) "Play" []
  | Stop => remote (player p) "Stop" []
  | Pause => remote (player p) "Pause" []
  | Next => remote (player p) "Next" []
  | Previous => remote (player p) "Previous" []
  | Quit => remote (root p) "Quit" []
  end.

(** A leaf handed to the action generator: a command leaf or anything
    else ([isinstance(leaf, MediaPlayerCommandLeaf)] tells them apart). *)
Inductive AnyLeaf : Type :=
  | CommandLeaf (c : MediaPlayerCommandLeaf)
  | OtherLeaf (l : Kupfer.Leaf).

Record MediaPlayerAction : Type := {
  _player : MediaPlayer;
  action_name : string
}.

Module MediaPlayerAction.
Definition __init__ (player_ : string) : M MediaPlayerAction :=
  p <- get_player player_ ;;
  ret {| _player := p; action_name := player_ |}.

Definition activate (self : MediaPlayerAction) (leaf : MediaPlayerCommandLeaf) : M unit :=
  shown <- name (_player self) ;;
  print_debug [ModuleName; Text ("activating for " ++ shown)] ;;;
  do_command leaf (_player self).
End MediaPlayerAction.

Module MediaPlayersGenerator.
Definition get_actions_for_leaf (leaf : AnyLeaf) : M (list MediaPlayerAction) :=
  match leaf with
  | CommandLeaf _ => names <- players ;; map_M MediaPlayerAction.__init__ names
  | OtherLeaf _ => ret []
  end.
End MediaPlayersGenerator.

Module MediaPlayerCommandsSource.
Definition get_items : list MediaPlayerCommandLeaf :=
  [PlayPause; Play; Stop; Pause; Next; Previous; Quit].
End MediaPlayerCommandsSource.

End MediaPlayers.

(** ** Reading a run *)

(** What a list of events holds: the remote calls, the debug lines, the
    calls of [dbus.SessionBus()] and those of [get_object]. *)
Definition remote_calls (evs : list Event) : list (Interface * string * list Arg) :=
  flat_map (fun e => match e with EvCall i m a => [(i, m, a)] | _ => [] end) evs.

Definition debug_lines (evs : list Event) : list (list LogArg) :=
  flat_map (fun e => match e with EvDebug a => [a] | _ => [] end) evs.

Definition is_connect (e : Event) : bool :=
  match e with EvSessionBus => true | _ => false end.

Definition connection_attempts (evs : list Event) : nat :=
  length (List.filter is_connect evs).

Definition is_lookup (e : Event) : bool :=
  match e with EvGetObject _ _ => true | _ => false end.

Definition object_lookups (evs : list Event) : nat :=
  length (List.filter is_lookup evs).

(** The world after [evs] more events; nothing else of it changes. *)
Definition add_events (w : World) (evs : list Event) : World :=
  {| bus := bus w; events := (events w ++ evs)%list;
     active_players := active_players w |}.

(** The events one run of [m] adds to [w]. *)
Definition new_events {A} (m : M A) (w : World) : list Event :=
  drop (length (events w)) (events (snd (m w))).

(** Why a connection to the object [path] of the service [name_] fails,
    if it does. *)
Definition connect_error (b : Bus) (name_ path : string) : option string :=
  match session_bus_error b with
  | Some msg => Some msg
  | None => get_object_error b name_ path
  end.

(** The interfaces the two helpers return. *)
Definition hamster_iface : Interface :=
  dbus_Interface {| bus_name := "org.gnome.Hamster"; object_path := "/org/gnome/Hamster" |}
                 "org.gnome.Hamster".

Definition hotot_iface : Interface :=
  dbus_Interface {| bus_name := "org.hotot.service"; object_path := "/org/hotot/service" |}
                 "org.hotot.service".

(** A bus on which every operation succeeds, to build examples from. *)
Definition quiet_bus : Bus :=
  {| session_bus_error := None;
     get_object_error := fun _ _ => None;
     call_error := fun _ _ _ => None;
     list_names := [];
     properties := fun _ _ _ => "";
     activities := [];
     clock := 1700000000.5%float;
     timezone := 0 |}.

(** A fresh world on the bus [b]. *)
Definition world_of (b : Bus) : World :=
  {| bus := b; events := []; active_players := ∅ |}.

(** One run of a connection helper, case by case. *)
Definition connect_outcome (name_ path : string) (i : Interface) (w : World)
  : Result (option Interface) * World :=
  match session_bus_error (bus w) with
  | Some msg =>
      (Ok None, add_events w [EvSessionBus; EvDebug [Err (DBusException msg)]])
  | None =>
      match get_object_error (bus w) name_ path with
      | Some msg =>
          (Ok None, add_events w [EvSessionBus; EvGetObject name_ path;
                                  EvDebug [Err (DBusException msg)]])
      | None => (Ok (Some i), add_events w [EvSessionBus; EvGetObject name_ path])
      end
  end.

(** A bus on which no service answers. *)
Definition deserted_bus : Bus :=
  {| session_bus_error := None;
     get_object_error :=
       fun _ _ => Some "org.freedesktop.DBus.Error.ServiceUnknown";
     call_error := fun _ _ _ => None;
     list_names := [];
     properties := fun _ _ _ => "";
     activities := [];
     clock := 1700000000.5%float;
     timezone := (-3600)%Z |}.

(** A bus with a Hamster that knows two activities. *)
Definition activities_bus : Bus :=
  {| session_bus_error := None;
     get_object_error := fun _ _ => None;
     call_error := fun _ _ _ => None;
     list_names := [];
     properties := fun _ _ _ => "";
     activities := [("reading", "work"); ("lunch", "")];
     clock := 1700000000.5%float;
     timezone := (-3600)%Z |}.

(** The text with a backslash put before every double quote. *)
Fixpoint escape_quotes (s : string) : string :=
  match s with
  | EmptyString => EmptyString
  | String c s' =>
      if Ascii.eqb c "034"
      then String "092" (String "034" (escape_quotes s'))
      else String c (escape_quotes s')
  end.

Fixpoint has_quote (s : string) : bool :=
  match s with
  | EmptyString => false
  | String c s' => Ascii.eqb c "034" || has_quote s'
  end.

(** A text with a quoted word in it, and what reaches Hotot for it. *)
Definition quoted_text : string :=
  "say " ++ String "034" ("hi" ++ String "034" EmptyString).

Definition quoted_text_sent : string :=
  "say " ++ String "092" (String "034" ("hi" ++ String "092" (String "034" EmptyString))).

(** The world after [evs] more events, with [tbl] for its table. *)
Definition advance (w : World) (evs : list Event) (tbl : gmap string MediaPlayer) : World :=
  {| bus := bus w; events := (events w ++ evs)%list; active_players := tbl |}.

(** The world with [tbl] for its table. *)
Definition with_table (w : World) (tbl : gmap string MediaPlayer) : World :=
  {| bus := bus w; events := events w; active_players := tbl |}.

(** The bus names [reindex] keeps, the player it builds for one, the name
    that player reports, and the entries it has to register, in the order
    of [ListNames]. *)
Definition mpris_names (b : Bus) : list string :=
  List.filter (fun n => startswith n "org.mpris.MediaPlayer2.") (list_names b).

Definition player_at (n : string) : MediaPlayer :=
  {| _dbus_obj := {| bus_name := n; object_path := "/org/mpris/MediaPlayer2" |} |}.

Definition desktop_entry (b : Bus) (p : MediaPlayer) : string :=
  properties b (_dbus_obj p) "org.mpris.MediaPlayer2" "DesktopEntry".

Definition entry (b : Bus) (n : string) : string * MediaPlayer :=
  (desktop_entry b (player_at n), player_at n).

Definition discovered (b : Bus) : list (string * MediaPlayer) :=
  map (entry b) (mpris_names b).

(** Why reading the name of the player at [n] fails, why listing the bus
    names fails, if they do; and a bus on which nothing the rescan does
    fails. *)
Definition name_error (b : Bus) (n : string) : option string :=
  call_error b (dbus_Interface (_dbus_obj (player_at n)) "org.freedesktop.DBus.Properties")
             "Get" [AStr "org.mpris.MediaPlayer2"; AStr "DesktopEntry"].

Definition list_error (b : Bus) : option string :=
  match connect_error b "org.freedesktop.DBus" "/" with
  | Some msg => Some msg
  | None =>
      call_error b (dbus_Interface {| bus_name := "org.freedesktop.DBus"; object_path := "/" |}
                                   "org.freedesktop.DBus")
                 "ListNames" []
  end.

Definition scan_error_free (b : Bus) : Prop :=
  list_error b = None /\
  Forall (fun n => get_object_error b n "/org/mpris/MediaPlayer2" = None /\
                   name_error b n = None)
         (mpris_names b).

(** The table the loop of [reindex] builds from [tbl], and how it ends. *)
Fixpoint scan (b : Bus) (names : list string) (tbl : gmap string MediaPlayer)
  : Result unit * gmap string MediaPlayer :=
  match names with
  | [] => (Ok tt, tbl)
  | n :: rest =>
      if startswith n "org.mpris.MediaPlayer2." then
        match get_object_error b n "/org/mpris/MediaPlayer2" with
        | Some msg => (Raise (DBusException msg), tbl)
        | None =>
            match name_error b n with
            | Some msg => (Raise (DBusException msg), tbl)
            | None => scan b rest (<[desktop_entry b (player_at n) := player_at n]> tbl)
            end
        end
      else scan b rest tbl
  end.

Definition rescan (b : Bus) : Result unit * gmap string MediaPlayer :=
  match list_error b with
  | Some msg => (Raise (DBusException msg), ∅)
  | None => scan b (list_names b) ∅
  end.

(** [tbl[k] = p] for an entry [(k, p)]. *)
Definition put (tbl : gmap string MediaPlayer) (kv : string * MediaPlayer)
  : gmap string MediaPlayer :=
  <[fst kv := snd kv]> tbl.

(** Two players under their own names. *)
Definition two_players_bus : Bus :=
  {| session_bus_error := None;
     get_object_error := fun _ _ => None;
     call_error := fun _ _ _ => None;
     list_names := ["org.freedesktop.DBus"; "org.mpris.MediaPlayer2.vlc";
                    ":1.42"; "org.mpris.MediaPlayer2.mpv"];
     properties := fun obj _ _ =>
                     if String.eqb (bus_name obj) "org.mpris.MediaPlayer2.vlc"
                     then "vlc" else "mpv";
     activities := [];
     clock := 1700000000.5%float;
     timezone := 0 |}.

(** Two instances of one player: both report the name [vlc]. *)
Definition twin_bus : Bus :=
  {| session_bus_error := None;
     get_object_error := fun _ _ => None;
     call_error := fun _ _ _ => None;
     list_names := ["org.freedesktop.DBus"; "org.mpris.MediaPlayer2.vlc";
                    "org.mpris.MediaPlayer2.vlc.instance7"];
     properties := fun _ _ _ => "vlc";
     activities := [];
     clock := 1700000000.5%float;
     timezone := 0 |}.

(** The signal handlers a list of events connects. *)
Definition signal_connections (evs : list Event) : list (string * string) :=
  flat_map (fun e => match e with EvSignalConnect s i => [(s, i)] | _ => [] end) evs.

(** How a call of [method] on what a helper returned ends: the attribute
    lookup fails on [None], and a failure of the peer comes back as it is. *)
Definition call_outcome (b : Bus) (name_ path : string) (i : Interface)
           (method : string) (args : list Arg) : Result unit :=
  match connect_error b name_ path with
  | Some _ =>
      Raise (AttributeError ("'NoneType' object has no attribute '" ++ method ++ "'"))
  | None =>
      match call_error b i method args with
      | Some msg => Raise (DBusException msg)
      | None => Ok tt
      end
  end.

(** The remote calls such a call makes. *)
Definition calls_made (b : Bus) (name_ path : string) (i : Interface)
           (method : string) (args : list Arg) : list (Interface * string * list Arg) :=
  match connect_error b name_ path with
  | Some _ => []
  | None => [(i, method, args)]
  end.

(** The properties interface of an object, and the one call [reindex]
    makes on it. *)
Definition properties_of (obj : Proxy) : Interface :=
  dbus_Interface obj "org.freedesktop.DBus.Properties".

(** What the rescan may do on the bus [b]: connect, look up the bus
    daemon or the MPRIS object of a listed name with the prefix, list the
    names, read the [DesktopEntry] of such an object, and print. *)
Definition rescan_event (b : Bus) (e : Event) : Prop :=
  match e with
  | EvSessionBus => True
  | EvGetObject n path =>
      (n = "org.freedesktop.DBus" /\ path = "/") \/
      (n ∈ list_names b /\ startswith n "org.mpris.MediaPlayer2." = true /\
       path = "/org/mpris/MediaPlayer2")
  | EvCall i method args =>
      (i = dbus_Interface {| bus_name := "org.freedesktop.DBus"; object_path := "/" |}
                          "org.freedesktop.DBus" /\
       method = "ListNames" /\ args = []) \/
      (exists n, n ∈ list_names b /\ startswith n "org.mpris.MediaPlayer2." = true /\
                 i = properties_of (_dbus_obj (player_at n)) /\
                 method = "Get" /\
                 args = [AStr "org.mpris.MediaPlayer2"; AStr "DesktopEntry"])
  | EvDebug _ => True
  | EvSignalConnect _ _ => False
  end.

(** A bus on which Hamster answers but refuses every call. *)
Definition refusing_bus : Bus :=
  {| session_bus_error := None;
     get_object_error := fun _ _ => None;
     call_error := fun _ _ _ => Some "org.freedesktop.DBus.Error.NoReply";
     list_names := [];
     properties := fun _ _ _ => "";
     activities := [];
     clock := 1700000000.5%float;
     timezone := 0 |}.


(** ** Basic facts *)

Lemma record_run e w : record e w = (Ok tt, add_events w [e]).
Proof. reflexivity. Qed.

Lemma SessionBus_run w :
  SessionBus w =
  (match session_bus_error (bus w) with
   | Some msg => Raise (DBusException msg)
   | None => Ok tt
   end, add_events w [EvSessionBus]).
Proof.
  unfold SessionBus, bind. rewrite record_run. simpl.
  by destruct (session_bus_error (bus w)).
Qed.

Lemma get_object_run name_ path w :
  get_object name_ path w =
  (match get_object_error (bus w) name_ path with
   | Some msg => Raise (DBusException msg)
   | None => Ok {| bus_name := name_; object_path := path |}
   end, add_events w [EvGetObject name_ path]).
Proof.
  unfold get_object, bind. rewrite record_run. simpl.
  by destruct (get_object_error (bus w) name_ path).
Qed.

Lemma remote_run i method args w :
  remote i method args w =
  (match call_error (bus w) i method args with
   | Some msg => Raise (DBusException msg)
   | None => Ok tt
   end, add_events w [EvCall i method args]).
Proof.
  unfold remote, bind. rewrite record_run. simpl.
  by destruct (call_error (bus w) i method args).
Qed.

Ltac finish_run :=
  simpl; unfold print_debug, bind, ret, record, add_events; simpl;
  rewrite <- ?app_assoc; reflexivity.

Ltac run_helper :=
  intros w; unfold connect_outcome, try_except_DBusException, bind;
  rewrite SessionBus_run;
  destruct (session_bus_error (bus w)) as [msg|] eqn:Hbus;
  [ finish_run | rewrite get_object_run; simpl;
    destruct (get_object_error (bus w) _ _) as [msg|] eqn:Hobj; finish_run ].

Lemma get_hamster_run :
  forall w, Hamster.get_hamster w =
            connect_outcome "org.gnome.Hamster" "/org/gnome/Hamster" hamster_iface w.
Proof. unfold Hamster.get_hamster. run_helper. Qed.

Lemma get_hotot_run :
  forall w, Hotot.get_hotot w =
            connect_outcome "org.hotot.service" "/org/hotot/service" hotot_iface w.
Proof. unfold Hotot.get_hotot. run_helper. Qed.

Lemma connect_outcome_events name_ path i w :
  exists evs r,
    connect_outcome name_ path i w = (Ok r, add_events w evs) /\
    connection_attempts evs = 1 /\
    object_lookups evs <= 1 /\
    remote_calls evs = [] /\
    match connect_error (bus w) name_ path with
    | None => r = Some i /\ debug_lines evs = []
    | Some msg => r = None /\ debug_lines evs = [[Err (DBusException msg)]]
    end.
Proof.
  unfold connect_outcome, connect_error.
  destruct (session_bus_error (bus w)) as [msg|].
  - eexists _, _. split; [reflexivity|].
    unfold connection_attempts, object_lookups. simpl. repeat split; (lia || reflexivity).
  - destruct (get_object_error (bus w) name_ path) as [msg|];
      (eexists _, _; split; [reflexivity|];
       unfold connection_attempts, object_lookups; simpl;
       repeat split; (lia || reflexivity)).
Qed.

(** The string and number primitives on small inputs. *)
Example str_replace_overlapping : str_replace "aaa" "aa" "b" = "ba".
Proof. reflexivity. Qed.

Example str_replace_empty_pattern : str_replace "abc" "" "-" = "-a-b-c-".
Proof. reflexivity. Qed.

Example str_replace_escapes_quotes :
  str_replace quoted_text Hotot.double_quote Hotot.escaped_quote = quoted_text_sent.
Proof. reflexivity. Qed.

Example startswith_mpris :
  startswith "org.mpris.MediaPlayer2.vlc" "org.mpris.MediaPlayer2." = true /\
  startswith "org.mpris.MediaPlayer2" "org.mpris.MediaPlayer2." = false.
Proof. split; reflexivity. Qed.

Example float_sub_int_east_of_utc :
  float_sub_int 1700000000.5%float (-3600) = 1700003600.5%float.
Proof. reflexivity. Qed.

(** ** The connection helpers *)

(** C3: one call of [get_hamster] or of [get_hotot] returns normally after
    exactly one [SessionBus()], at most one [get_object] and no remote
    call; when the bus and the service answer it returns the interface and
    prints nothing, and when either raises a [DBusException] it prints that
    one exception and returns [None]. *)
Theorem connection_helpers_try_once :
  forall w : World,
    (exists evs r,
        Hamster.get_hamster w = (Ok r, add_events w evs) /\
        connection_attempts evs = 1 /\
        object_lookups evs <= 1 /\
        remote_calls evs = [] /\
        match connect_error (bus w) "org.gnome.Hamster" "/org/gnome/Hamster" with
        | None => r = Some hamster_iface /\ debug_lines evs = []
        | Some msg => r = None /\ debug_lines evs = [[Err (DBusException msg)]]
        end) /\
    (exists evs r,
        Hotot.get_hotot w = (Ok r, add_events w evs) /\
        connection_attempts evs = 1 /\
        object_lookups evs <= 1 /\
        remote_calls evs = [] /\
        match connect_error (bus w) "org.hotot.service" "/org/hotot/service" with
        | None => r = Some hotot_iface /\ debug_lines evs = []
        | Some msg => r = None /\ debug_lines evs = [[Err (DBusException msg)]]
        end).
Proof.
  intros w. split.
  - rewrite get_hamster_run. apply connect_outcome_events.
  - rewrite get_hotot_run. apply connect_outcome_events.
Qed.

(** ** Timestamps sent to Hamster *)

Ltac run_action :=
  unfold bind; simpl;
  repeat (rewrite remote_run; simpl);
  unfold add_events; simpl; rewrite <- ?app_assoc; simpl;
  rewrite ?drop_app_length; try reflexivity.

Lemma StartActivity_activate_calls leaf w :
  remote_calls (new_events (Hamster.StartActivity.activate leaf) w) =
  match connect_error (bus w) "org.gnome.Hamster" "/org/gnome/Hamster" with
  | None => [(hamster_iface, "AddFact",
              [AStr (Kupfer.object leaf); AFloat (float_sub_int (clock (bus w)) (timezone (bus w)));
               AInt 0; ABool false])]
  | Some _ => []
  end.
Proof.
  unfold new_events, Hamster.StartActivity.activate, bind.
  rewrite get_hamster_run. unfold connect_outcome, connect_error.
  destruct (session_bus_error (bus w)) as [msg|]; [by run_action|].
  destruct (get_object_error (bus w) _ _) as [msg|]; [by run_action|].
  unfold getattr, time_time, time_timezone, ret. run_action.
Qed.

Lemma StopTrackingLeaf_run_calls w :
  remote_calls (new_events Hamster.StopTrackingLeaf.run w) =
  match connect_error (bus w) "org.gnome.Hamster" "/org/gnome/Hamster" with
  | None => [(hamster_iface, "StopTracking", [AFloat (float_sub_int (clock (bus w)) (timezone (bus w)))])]
  | Some _ => []
  end.
Proof.
  unfold new_events, Hamster.StopTrackingLeaf.run, bind.
  rewrite get_hamster_run. unfold connect_outcome, connect_error.
  destruct (session_bus_error (bus w)) as [msg|]; [by run_action|].
  destruct (get_object_error (bus w) _ _) as [msg|]; [by run_action|].
  unfold getattr, time_time, time_timezone, ret. run_action.
Qed.

(** C8, as amended: the remote calls [StartActivity.activate] and
    [StopTrackingLeaf.run] make are, on a reachable Hamster, the single call
    [AddFact(leaf.object, t, 0, False)], respectively [StopTracking(t)],
    where [t] is [time.time() - time.timezone]; on an unreachable one they
    make none.  Nothing is said about [t] differing from [time.time()]. *)
Theorem hamster_timestamps_shifted :
  forall (w : World) (leaf : Kupfer.Leaf),
    remote_calls (new_events (Hamster.StartActivity.activate leaf) w) =
    match connect_error (bus w) "org.gnome.Hamster" "/org/gnome/Hamster" with
    | None => [(hamster_iface, "AddFact",
                [AStr (Kupfer.object leaf);
                 AFloat (float_sub_int (clock (bus w)) (timezone (bus w)));
                 AInt 0; ABool false])]
    | Some _ => []
    end /\
    remote_calls (new_events Hamster.StopTrackingLeaf.run w) =
    match connect_error (bus w) "org.gnome.Hamster" "/org/gnome/Hamster" with
    | None => [(hamster_iface, "StopTracking",
                [AFloat (float_sub_int (clock (bus w)) (timezone (bus w)))])]
    | Some _ => []
    end.
Proof.
  intros w leaf. split.
  - apply StartActivity_activate_calls.
  - apply StopTrackingLeaf_run_calls.
Qed.

(** C8 as it was stated fails on a host whose zone is UTC: there
    [time.timezone] is 0 and the start time sent with [AddFact] is the raw
    epoch time. *)
Lemma hamster_timestamp_raw_in_utc :
  timezone quiet_bus = 0%Z /\
  remote_calls (new_events
                  (Hamster.StartActivity.activate (Hamster.ActivityLeaf "reading"))
                  (world_of quiet_bus)) =
  [(hamster_iface, "AddFact",
    [AStr "reading"; AFloat (clock quiet_bus); AInt 0; ABool false])].
Proof. split; reflexivity. Qed.

(** ** When an action is offered *)

Lemma connect_outcome_fst name_ path i w :
  fst (connect_outcome name_ path i w) =
  Ok (match connect_error (bus w) name_ path with
      | None => Some i
      | Some _ => None
      end).
Proof.
  unfold connect_outcome, connect_error.
  destruct (session_bus_error (bus w)); [done|].
  by destruct (get_object_error (bus w) name_ path).
Qed.

Lemma is_not_None_after_helper (helper : M (option Interface)) w :
  (exists o, fst (helper w) = Ok o) ->
  fst ((o <- helper ;; ret (is_not_None o)) w) = Ok true <->
  exists i, fst (helper w) = Ok (Some i).
Proof.
  intros [o Ho]. unfold bind, ret.
  destruct (helper w) as [[o'|e] w']; simpl in *; [|done].
  destruct o' as [i|]; simpl; split; try done.
  - eauto.
  - by intros [i Hi].
Qed.

(** C7: [HototAction.valid_for_item] answers [True] exactly when the item's
    name is ['Hotot'] and [get_hotot()] returns an interface, and
    [Toggle.valid_for_item] exactly when the item's id is one of
    [HAMSTER_APPNAMES] and [get_hamster()] returns an interface; both
    answer [False] otherwise, and neither raises. *)
Theorem valid_for_item_iff_running :
  forall (w : World) (self : Hotot.HototAction) (item : Kupfer.AppLeaf),
    (fst (Hotot.HototAction.valid_for_item self item w) = Ok true <->
     Kupfer.app_name item = "Hotot" /\
     exists i, fst (Hotot.get_hotot w) = Ok (Some i)) /\
    (fst (Hamster.Toggle.valid_for_item item w) = Ok true <->
     Kupfer.get_id item ∈ Hamster.HAMSTER_APPNAMES /\
     exists i, fst (Hamster.get_hamster w) = Ok (Some i)) /\
    (exists b, fst (Hotot.HototAction.valid_for_item self item w) = Ok b) /\
    (exists b, fst (Hamster.Toggle.valid_for_item item w) = Ok b).
Proof.
  intros w self item.
  assert (Hhot : exists o, fst (Hotot.get_hotot w) = Ok o)
    by (rewrite get_hotot_run, connect_outcome_fst; eauto).
  assert (Hham : exists o, fst (Hamster.get_hamster w) = Ok o)
    by (rewrite get_hamster_run, connect_outcome_fst; eauto).
  split; [|split; [|split]].
  - unfold Hotot.HototAction.valid_for_item.
    destruct (String.eqb_spec (Kupfer.app_name item) "Hotot") as [E|E].
    + rewrite is_not_None_after_helper by done.
      split; [by intros Hi | by intros [_ Hi]].
    + simpl. split; [discriminate|]. by intros [? _].
  - unfold Hamster.Toggle.valid_for_item. case_bool_decide as E.
    + rewrite is_not_None_after_helper by done.
      split; [by intros Hi | by intros [_ Hi]].
    + simpl. split; [discriminate|]. by intros [? _].
  - unfold Hotot.HototAction.valid_for_item.
    destruct (String.eqb _ _); [|by eexists].
    destruct Hhot as [o Ho]. unfold bind, ret.
    destruct (Hotot.get_hotot w) as [[o'|e] w']; simpl in *; [by eexists|done].
  - unfold Hamster.Toggle.valid_for_item.
    case_bool_decide; [|by eexists].
    destruct Hham as [o Ho]. unfold bind, ret.
    destruct (Hamster.get_hamster w) as [[o'|e] w']; simpl in *; [by eexists|done].
Qed.

(** ** Hamster out of reach *)

(** C1, what the code does instead: when [get_hamster()] returns [None],
    [Toggle.activate], [StartActivity.activate] and the generator of
    [ActivitiesSource.get_items] each raise [AttributeError] from the
    attribute lookup on [None]. *)
Theorem hamster_unreachable_raises :
  forall (w : World) (item : Kupfer.AppLeaf) (leaf : Kupfer.Leaf),
    fst (Hamster.get_hamster w) = Ok None ->
    fst (Hamster.Toggle.activate item w) =
      Raise (AttributeError "'NoneType' object has no attribute 'Toggle'") /\
    fst (Hamster.StartActivity.activate leaf w) =
      Raise (AttributeError "'NoneType' object has no attribute 'AddFact'") /\
    fst (Hamster.ActivitiesSource.get_items w) =
      Raise (AttributeError "'NoneType' object has no attribute 'GetActivities'").
Proof.
  intros w item leaf H.
  unfold Hamster.Toggle.activate, Hamster.StartActivity.activate,
    Hamster.ActivitiesSource.get_items, bind.
  destruct (Hamster.get_hamster w) as [[[i|]|e] w']; simpl in H; try discriminate.
  by repeat split.
Qed.

Lemma hamster_unreachable_raises_witness :
  fst (Hamster.get_hamster (world_of deserted_bus)) = Ok None /\
  fst (Hamster.Toggle.activate
         {| Kupfer.get_id := "hamster-indicator"; Kupfer.app_name := "Hamster" |}
         (world_of deserted_bus)) =
    Raise (AttributeError "'NoneType' object has no attribute 'Toggle'").
Proof.
  split; [reflexivity|].
  apply (hamster_unreachable_raises (world_of deserted_bus)
           {| Kupfer.get_id := "hamster-indicator"; Kupfer.app_name := "Hamster" |}
           (Hamster.ActivityLeaf "reading")).
  reflexivity.
Defined.

(** ** The activities of Hamster *)

(** C9: on a reachable Hamster whose [GetActivities] call succeeds,
    [ActivitiesSource.get_items] yields one leaf per record, in order; the
    leaf's name (and object) is the record's first field when the second
    is empty, and the first field, ['@'] and the second field otherwise. *)
Theorem activity_leaf_per_record :
  forall w : World,
    connect_error (bus w) "org.gnome.Hamster" "/org/gnome/Hamster" = None ->
    call_error (bus w) hamster_iface "GetActivities" [AStr ""] = None ->
    exists leaves,
      fst (Hamster.ActivitiesSource.get_items w) = Ok leaves /\
      Forall2 (fun act leaf =>
                 Kupfer.object leaf = Kupfer.name leaf /\
                 (snd act = "" -> Kupfer.name leaf = fst act) /\
                 (snd act <> "" -> Kupfer.name leaf = fst act ++ "@" ++ snd act))
              (activities (bus w)) leaves.
Proof.
  intros w Hconn Hcall.
  exists (map Hamster.ActivitiesSource.leaf_of (activities (bus w))). split.
  - unfold Hamster.ActivitiesSource.get_items, bind.
    rewrite get_hamster_run. unfold connect_outcome.
    unfold connect_error in Hconn.
    destruct (session_bus_error (bus w)); [done|]. rewrite Hconn. simpl.
    unfold reply_of, bind. rewrite remote_run. simpl. by rewrite Hcall.
  - apply Forall2_fmap_r, Forall_Forall2_diag, Forall_forall.
    intros [a c] _. unfold Hamster.ActivitiesSource.leaf_of. simpl.
    destruct c; simpl; by repeat split.
Qed.

Lemma activity_leaf_per_record_witness :
  exists leaves,
    fst (Hamster.ActivitiesSource.get_items (world_of activities_bus)) = Ok leaves /\
    Forall2 (fun act leaf =>
               Kupfer.object leaf = Kupfer.name leaf /\
               (snd act = "" -> Kupfer.name leaf = fst act) /\
               (snd act <> "" -> Kupfer.name leaf = fst act ++ "@" ++ snd act))
            [("reading", "work"); ("lunch", "")] leaves.
Proof.
  apply (activity_leaf_per_record (world_of activities_bus)); reflexivity.
Defined.

Example get_items_on_activities_bus :
  fst (Hamster.ActivitiesSource.get_items (world_of activities_bus)) =
  Ok [Hamster.ActivityLeaf "reading@work"; Hamster.ActivityLeaf "lunch"].
Proof. reflexivity. Qed.

(** ** The text sent to Hotot *)

Lemma str_replace_quotes s :
  str_replace s Hotot.double_quote Hotot.escaped_quote = escape_quotes s.
Proof.
  unfold str_replace, Hotot.double_quote.
  induction s as [|c s IH]; [done|].
  cbn [replace_from escape_quotes String.prefix].
  destruct (ascii_dec "034" c) as [<-|Hc].
  - assert (String.prefix "" s = true) as -> by (by destruct s).
    simpl. by rewrite IH.
  - rewrite (proj2 (Ascii.eqb_neq c "034")) by congruence.
    by rewrite IH.
Qed.

Lemma escape_quotes_fixed s : escape_quotes s = s <-> has_quote s = false.
Proof.
  induction s as [|c s IH]; [done|]. simpl.
  destruct (Ascii.eqb_spec c "034") as [->|Hc]; simpl.
  - split; discriminate.
  - rewrite <- IH. split; [by intros [=]|by intros ->].
Qed.

Lemma SendUpdate_activate_calls leaf w :
  remote_calls (new_events (Hotot.SendUpdate.activate leaf) w) =
  match connect_error (bus w) "org.hotot.service" "/org/hotot/service" with
  | None => [(hotot_iface, "update_status",
              [AStr (str_replace (Kupfer.object leaf)
                                 Hotot.double_quote Hotot.escaped_quote)])]
  | Some _ => []
  end.
Proof.
  unfold new_events, Hotot.SendUpdate.activate, print_debug, bind.
  rewrite !record_run, get_hotot_run. unfold connect_outcome, connect_error. simpl.
  destruct (session_bus_error (bus w)) as [msg|]; [by run_action|].
  destruct (get_object_error (bus w) _ _) as [msg|]; [by run_action|].
  unfold getattr, ret. run_action.
Qed.

(** C2, as amended: on a reachable Hotot, [SendUpdate.activate] makes one
    remote call, [update_status], whose single argument is the leaf's text
    with a backslash put before every double quote; that argument is the
    text itself exactly when the text has no double quote.  On an
    unreachable Hotot it makes no remote call. *)
Theorem send_update_forwards_escaped_text :
  forall (w : World) (leaf : Kupfer.Leaf),
    remote_calls (new_events (Hotot.SendUpdate.activate leaf) w) =
    match connect_error (bus w) "org.hotot.service" "/org/hotot/service" with
    | None => [(hotot_iface, "update_status",
                [AStr (escape_quotes (Kupfer.object leaf))])]
    | Some _ => []
    end /\
    (escape_quotes (Kupfer.object leaf) = Kupfer.object leaf <->
     has_quote (Kupfer.object leaf) = false).
Proof.
  intros w leaf. split.
  - rewrite SendUpdate_activate_calls. by rewrite str_replace_quotes.
  - apply escape_quotes_fixed.
Qed.

(** C2 as it was stated fails on a text with a double quote: the argument
    of [update_status] is not the leaf's text. *)
Lemma send_update_changes_quoted_text :
  remote_calls (new_events
                  (Hotot.SendUpdate.activate
                     {| Kupfer.object := quoted_text; Kupfer.name := quoted_text |})
                  (world_of quiet_bus)) =
  [(hotot_iface, "update_status", [AStr quoted_text_sent])] /\
  quoted_text_sent <> quoted_text.
Proof. split; [reflexivity | discriminate]. Qed.

(** ** The media-player commands *)

(** C6: [MediaPlayerCommandsSource.get_items] yields the seven leaves
    PlayPause, Play, Stop, Pause, Next, Previous, Quit in that order, and
    the [do_command] of each makes exactly one remote call, without
    arguments: the method of the leaf's name, on the player interface of
    the player's object for the first six and on its root interface for
    Quit. *)
Theorem command_leaves_and_their_calls :
  MediaPlayers.MediaPlayerCommandsSource.get_items =
    [MediaPlayers.PlayPause; MediaPlayers.Play; MediaPlayers.Stop;
     MediaPlayers.Pause; MediaPlayers.Next; MediaPlayers.Previous;
     MediaPlayers.Quit] /\
  length MediaPlayers.MediaPlayerCommandsSource.get_items = 7 /\
  forall (p : MediaPlayer) (w : World),
    let on_player := dbus_Interface (_dbus_obj p) "org.mpris.MediaPlayer2.Player" in
    let on_root := dbus_Interface (_dbus_obj p) "org.mpris.MediaPlayer2" in
    map (fun leaf => new_events (MediaPlayers.do_command leaf p) w)
        MediaPlayers.MediaPlayerCommandsSource.get_items =
    [[EvCall on_player "PlayPause" []];
     [EvCall on_player "Play" []];
     [EvCall on_player "Stop" []];
     [EvCall on_player "Pause" []];
     [EvCall on_player "Next" []];
     [EvCall on_player "Previous" []];
     [EvCall on_root "Quit" []]].
Proof.
  split; [reflexivity|]. split; [reflexivity|].
  intros p w on_player on_root. simpl.
  unfold new_events. rewrite !remote_run. simpl.
  by rewrite !drop_app_length.
Qed.

(** ** Actions for the registered players *)

Lemma players_keys w n :
  n ∈ (map_to_list (active_players w)).*1 <-> is_Some (active_players w !! n).
Proof.
  rewrite list_elem_of_fmap. split.
  - intros [[k p] [-> Hin]]. apply elem_of_map_to_list in Hin. by exists p.
  - intros [p Hp]. exists (n, p). split; [done|]. by apply elem_of_map_to_list.
Qed.

Lemma actions_for_keys w (keys : list string) :
  (forall n, n ∈ keys -> is_Some (active_players w !! n)) ->
  exists acts,
    map_M MediaPlayers.MediaPlayerAction.__init__ keys w = (Ok acts, w) /\
    map MediaPlayers.action_name acts = keys /\
    Forall (fun a => active_players w !! MediaPlayers.action_name a
                     = Some (MediaPlayers._player a)) acts.
Proof.
  induction keys as [|n keys IH]; intros Hkeys.
  - by exists [].
  - destruct (Hkeys n) as [p Hp]; [by left|].
    destruct IH as (acts & Hrun & Hnames & Hall).
    { intros n' Hn'. apply Hkeys. by right. }
    exists ({| MediaPlayers._player := p; MediaPlayers.action_name := n |} :: acts).
    split; [|split].
    + cbn [map_M]. unfold bind at 1.
      unfold MediaPlayers.MediaPlayerAction.__init__ at 1.
      unfold bind at 1, MediaPlayers.get_player at 1. rewrite Hp. simpl.
      unfold bind at 1. by rewrite Hrun.
    + simpl. by rewrite Hnames.
    + by constructor.
Qed.

(** C10: on any table, [players] yields exactly its keys, each once;
    [get_player] succeeds on each of them with the player the table holds
    for it; and [get_actions_for_leaf] returns normally, leaving the world
    as it was: one action per yielded name, holding that name's registered
    player, for a command leaf, and the empty list for any other leaf. *)
Theorem actions_never_miss_a_key :
  forall (w : World) (leaf : MediaPlayers.AnyLeaf),
    exists keys acts,
      MediaPlayers.players w = (Ok keys, w) /\
      NoDup keys /\
      (forall n, n ∈ keys <-> is_Some (active_players w !! n)) /\
      (forall n, n ∈ keys ->
                 exists p, MediaPlayers.get_player n w = (Ok p, w) /\
                           active_players w !! n = Some p) /\
      MediaPlayers.MediaPlayersGenerator.get_actions_for_leaf leaf w = (Ok acts, w) /\
      match leaf with
      | MediaPlayers.CommandLeaf _ =>
          map MediaPlayers.action_name acts = keys /\
          Forall (fun a => active_players w !! MediaPlayers.action_name a
                           = Some (MediaPlayers._player a)) acts
      | MediaPlayers.OtherLeaf _ => acts = []
      end.
Proof.
  intros w leaf.
  destruct (actions_for_keys w (map_to_list (active_players w)).*1)
    as (acts & Hrun & Hnames & Hall).
  { intros n. apply players_keys. }
  exists (map_to_list (active_players w)).*1,
         (match leaf with MediaPlayers.CommandLeaf _ => acts | _ => [] end).
  split; [reflexivity|]. split; [apply NoDup_fst_map_to_list|].
  split; [apply players_keys|]. split.
  - intros n Hn. apply players_keys in Hn as [p Hp]. exists p.
    unfold MediaPlayers.get_player. by rewrite Hp.
  - destruct leaf as [c|l]; [|done]. split; [|done].
    unfold MediaPlayers.MediaPlayersGenerator.get_actions_for_leaf, bind.
    unfold MediaPlayers.players at 1. apply Hrun.
Qed.

(** ** The rescan of the registry *)

Lemma advance_advance w evs tbl evs' tbl' :
  advance (advance w evs tbl) evs' tbl' = advance w (evs ++ evs') tbl'.
Proof. unfold advance; simpl. by rewrite <- app_assoc. Qed.

Lemma advance_same w : advance w [] (active_players w) = w.
Proof. destruct w; unfold advance; simpl. by rewrite app_nil_r. Qed.

Lemma name_run n w :
  MediaPlayers.name (player_at n) w =
  (match name_error (bus w) n with
   | Some msg => Raise (DBusException msg)
   | None => Ok (desktop_entry (bus w) (player_at n))
   end,
   add_events w [EvCall (dbus_Interface (_dbus_obj (player_at n))
                                        "org.freedesktop.DBus.Properties")
                        "Get" [AStr "org.mpris.MediaPlayer2"; AStr "DesktopEntry"]]).
Proof.
  unfold MediaPlayers.name, MediaPlayers.get_root_property,
    MediaPlayers._get_property, reply_of, bind.
  rewrite remote_run. unfold name_error.
  by destruct (call_error (bus w) _ _ _).
Qed.

Ltac close_run :=
  eexists; unfold advance, add_events, record; simpl;
  rewrite <- ?app_assoc; reflexivity.

Lemma register_run n w :
  exists evs,
    MediaPlayers.register n w =
    (fst (scan (bus w) [n] (active_players w)),
     advance w evs (snd (scan (bus w) [n] (active_players w)))).
Proof.
  unfold MediaPlayers.register. cbn [scan].
  destruct (startswith n "org.mpris.MediaPlayer2.").
  - unfold bind, print_debug. rewrite record_run, get_object_run. simpl.
    destruct (get_object_error (bus w) n _) as [msg|]; [close_run|].
    change {| _dbus_obj := {| bus_name := n; object_path := "/org/mpris/MediaPlayer2" |} |}
      with (player_at n).
    rewrite name_run. simpl.
    destruct (name_error (bus w) n) as [msg|] eqn:Hname; [close_run|].
    simpl. rewrite name_run. simpl. rewrite Hname. close_run.
  - exists []. simpl. by rewrite advance_same.
Qed.

Lemma scan_cons b n rest tbl :
  scan b (n :: rest) tbl =
  match fst (scan b [n] tbl) with
  | Ok _ => scan b rest (snd (scan b [n] tbl))
  | Raise e => (Raise e, snd (scan b [n] tbl))
  end.
Proof.
  cbn [scan]. destruct (startswith n _); [|done].
  destruct (get_object_error b n _); [done|].
  by destruct (name_error b n).
Qed.

Lemma for_each_register_run names w :
  exists evs,
    for_each names MediaPlayers.register w =
    (fst (scan (bus w) names (active_players w)),
     advance w evs (snd (scan (bus w) names (active_players w)))).
Proof.
  revert w. induction names as [|n rest IH]; intros w.
  - exists []. simpl. by rewrite advance_same.
  - cbn [for_each]. unfold bind.
    destruct (register_run n w) as [evs ->]. rewrite (scan_cons _ n rest).
    destruct (scan (bus w) [n] (active_players w)) as [[[]|e] tbl1]; cbn [fst snd].
    + destruct (IH (advance w evs tbl1)) as [evs' ->]. simpl.
      exists (evs ++ evs')%list. by rewrite advance_advance.
    + by exists evs.
Qed.

Lemma reindex_run w :
  exists evs,
    MediaPlayers.reindex w =
    (fst (rescan (bus w)), advance w (EvSessionBus :: evs) (snd (rescan (bus w)))).
Proof.
  unfold MediaPlayers.reindex, rescan, list_error, connect_error, bind.
  unfold MediaPlayers.set_active_players at 1. rewrite SessionBus_run. simpl.
  destruct (session_bus_error (bus w)) as [msg|]; [by exists []|].
  rewrite get_object_run. simpl.
  destruct (get_object_error (bus w) _ _) as [msg|]; [close_run|].
  unfold MediaPlayers.ListNames, reply_of, bind. rewrite remote_run. simpl.
  destruct (call_error (bus w) _ _ _) as [msg|]; [close_run|].
  match goal with |- context [for_each _ _ ?w1] =>
    destruct (for_each_register_run (list_names (bus w)) w1) as [evs ->] end.
  close_run.
Qed.

Lemma reindex_leaves_a_trace w : MediaPlayers.reindex w <> (Ok tt, w).
Proof.
  destruct (reindex_run w) as [evs ->]. intros [= _ H].
  apply (f_equal events), (f_equal length) in H. simpl in H.
  rewrite length_app in H. simpl in H. lia.
Qed.

Lemma foldl_put_other (l : list (string * MediaPlayer)) tbl k :
  k ∉ l.*1 -> foldl put tbl l !! k = tbl !! k.
Proof.
  revert tbl. induction l as [|[k' p'] l IH]; intros tbl Hk; [done|].
  simpl in *. apply not_elem_of_cons in Hk as [Hne Hk].
  rewrite IH by done. unfold put. simpl. by rewrite lookup_insert_ne.
Qed.

Lemma foldl_put_last (l1 l2 : list (string * MediaPlayer)) tbl k p :
  k ∉ l2.*1 -> foldl put tbl (l1 ++ (k, p) :: l2) !! k = Some p.
Proof.
  intros Hk. rewrite foldl_app. simpl. rewrite foldl_put_other by done.
  unfold put. simpl. by rewrite lookup_insert_eq.
Qed.

Lemma last_occurrence (l : list (string * MediaPlayer)) k :
  k ∈ l.*1 -> exists l1 p l2, l = (l1 ++ (k, p) :: l2)%list /\ k ∉ l2.*1.
Proof.
  induction l as [|[k' p'] l IH]; simpl; intros Hk.
  - by apply elem_of_nil in Hk.
  - destruct (decide (k ∈ l.*1)) as [Hin|Hout].
    + destruct (IH Hin) as (l1 & p & l2 & -> & Hl2).
      by exists ((k', p') :: l1), p, l2.
    + apply elem_of_cons in Hk as [->|Hk]; [|done].
      by exists [], p', l.
Qed.

Lemma foldl_put_lookup (l : list (string * MediaPlayer)) k p :
  foldl put ∅ l !! k = Some p <->
  exists l1 l2, l = (l1 ++ (k, p) :: l2)%list /\ k ∉ l2.*1.
Proof.
  split.
  - intros Hp. destruct (decide (k ∈ l.*1)) as [Hin|Hout].
    + destruct (last_occurrence l k Hin) as (l1 & p' & l2 & -> & Hl2).
      rewrite foldl_put_last in Hp by done. injection Hp as ->. by exists l1, l2.
    + rewrite foldl_put_other in Hp by done. by rewrite lookup_empty in Hp.
  - intros (l1 & l2 & -> & Hl2). by apply foldl_put_last.
Qed.

Lemma foldl_put_lookup_NoDup (l : list (string * MediaPlayer)) k p :
  NoDup l.*1 -> foldl put ∅ l !! k = Some p <-> (k, p) ∈ l.
Proof.
  intros Hnd. rewrite foldl_put_lookup. split.
  - intros (l1 & l2 & -> & _). apply elem_of_app. right. by left.
  - intros Hin. apply list_elem_of_split in Hin as (l1 & l2 & ->).
    exists l1, l2. split; [done|].
    rewrite fmap_app, fmap_cons in Hnd. apply NoDup_app in Hnd as (_ & _ & Hnd).
    by apply NoDup_cons in Hnd as [Hk _].
Qed.

Lemma scan_entries b names tbl k p :
  snd (scan b names tbl) !! k = Some p ->
  tbl !! k = Some p \/
  exists n, n ∈ names /\ startswith n "org.mpris.MediaPlayer2." = true /\
            p = player_at n /\ k = desktop_entry b p.
Proof.
  revert tbl. induction names as [|n rest IH]; intros tbl; cbn [scan]; [by left|].
  assert (Hrest : forall tbl',
             snd (scan b rest tbl') !! k = Some p ->
             tbl' !! k = Some p \/
             exists n0, n0 ∈ n :: rest /\
                        startswith n0 "org.mpris.MediaPlayer2." = true /\
                        p = player_at n0 /\ k = desktop_entry b p).
  { intros tbl' H. destruct (IH tbl' H) as [?|(n0 & ? & ?)]; [by left|].
    right. exists n0. split; [by right|done]. }
  destruct (startswith n "org.mpris.MediaPlayer2.") eqn:Hpre; [|apply Hrest].
  destruct (get_object_error b n _); [by left|].
  destruct (name_error b n); [by left|].
  intros H. destruct (Hrest _ H) as [Hins|?]; [|by right].
  destruct (decide (desktop_entry b (player_at n) = k)) as [<-|Hne].
  - rewrite lookup_insert_eq in Hins. injection Hins as <-.
    right. exists n. split; [by left|done].
  - rewrite lookup_insert_ne in Hins by done. by left.
Qed.

Lemma scan_error_free_run b names tbl :
  Forall (fun n => get_object_error b n "/org/mpris/MediaPlayer2" = None /\
                   name_error b n = None)
         (List.filter (fun n => startswith n "org.mpris.MediaPlayer2.") names) ->
  scan b names tbl =
  (Ok tt, foldl put tbl
            (map (entry b)
                 (List.filter (fun n => startswith n "org.mpris.MediaPlayer2.") names))).
Proof.
  revert tbl. induction names as [|n rest IH]; intros tbl Hok; [done|].
  cbn [scan List.filter] in *.
  destruct (startswith n "org.mpris.MediaPlayer2."); [|by apply IH].
  apply Forall_cons in Hok as [[-> ->] Hok]. by rewrite IH.
Qed.

(** C4, as amended: after [reindex] the table does not depend on the table
    before it, and every entry maps the name a player reports to that
    player, whose bus name is listed and starts with
    ['org.mpris.MediaPlayer2.'].  When no bus operation of the rescan
    fails, [reindex] returns normally and every name maps to the last
    listed player that reports it; so the table holds exactly the players
    with such bus names when the names they report are pairwise distinct. *)
Theorem reindex_rebuilds_table :
  forall w : World,
    let tbl := active_players (snd (MediaPlayers.reindex w)) in
    (forall old, active_players (snd (MediaPlayers.reindex (with_table w old))) = tbl) /\
    (forall k p, tbl !! k = Some p ->
                 exists n, n ∈ list_names (bus w) /\
                           startswith n "org.mpris.MediaPlayer2." = true /\
                           p = player_at n /\ k = desktop_entry (bus w) p) /\
    (scan_error_free (bus w) ->
     fst (MediaPlayers.reindex w) = Ok tt /\
     (forall k p, tbl !! k = Some p <->
                  exists l1 l2, discovered (bus w) = (l1 ++ (k, p) :: l2)%list /\
                                k ∉ l2.*1) /\
     (NoDup (discovered (bus w)).*1 ->
      forall k p, tbl !! k = Some p <-> (k, p) ∈ discovered (bus w))).
Proof.
  intros w tbl. subst tbl.
  destruct (reindex_run w) as [evs Hrun].
  split; [|split].
  - intros old. destruct (reindex_run (with_table w old)) as [evs' ->].
    by rewrite Hrun.
  - intros k p. rewrite Hrun. simpl. unfold rescan.
    destruct (list_error (bus w)); simpl; [by rewrite lookup_empty|].
    intros H. apply scan_entries in H as [H|H]; [|done].
    by rewrite lookup_empty in H.
  - intros [Hlist Hall]. rewrite Hrun. simpl. unfold rescan. rewrite Hlist.
    rewrite scan_error_free_run by done. simpl.
    split; [done|]. split.
    + intros k p. apply foldl_put_lookup.
    + intros Hnd k p. by apply foldl_put_lookup_NoDup.
Qed.

Lemma two_players_bus_error_free : scan_error_free two_players_bus.
Proof. split; [reflexivity|]. simpl. by repeat constructor. Qed.

Lemma reindex_rebuilds_table_witness :
  fst (MediaPlayers.reindex (world_of two_players_bus)) = Ok tt /\
  active_players (snd (MediaPlayers.reindex (world_of two_players_bus))) !! "mpv"
  = Some (player_at "org.mpris.MediaPlayer2.mpv").
Proof.
  destruct (reindex_rebuilds_table (world_of two_players_bus)) as (_ & _ & H).
  destruct (H two_players_bus_error_free) as (Hok & Hlast & _).
  split; [exact Hok|]. apply Hlast.
  exists [entry two_players_bus "org.mpris.MediaPlayer2.vlc"], [].
  split; [reflexivity|]. apply not_elem_of_nil.
Defined.

(** C4 as it was stated fails when two players report one name: both bus
    names start with the prefix, the rescan succeeds, and the table holds
    the second player only. *)
Lemma reindex_keeps_one_of_twins :
  mpris_names twin_bus =
    ["org.mpris.MediaPlayer2.vlc"; "org.mpris.MediaPlayer2.vlc.instance7"] /\
  fst (MediaPlayers.reindex (world_of twin_bus)) = Ok tt /\
  active_players (snd (MediaPlayers.reindex (world_of twin_bus))) =
    {[ "vlc" := player_at "org.mpris.MediaPlayer2.vlc.instance7" ]}.
Proof.
  split; [reflexivity|]. split; [reflexivity|].
  apply map_eq. intros k.
  destruct (reindex_run (world_of twin_bus)) as [evs ->]. simpl.
  unfold rescan. simpl. unfold put. simpl.
  by rewrite insert_insert_eq, insert_empty.
Qed.

(** ** The name-owner-changed signal *)

(** C5: [_signal_update] runs [reindex] exactly when it is given at least
    one argument and the first one starts with ['org.mpris.MediaPlayer2.'];
    on any other notification it returns at once and the world, the table
    of players included, is as before. *)
Theorem signal_update_reindexes_iff :
  forall (args : list string) (w : World),
    (MediaPlayers._signal_update args w = MediaPlayers.reindex w <->
     exists a rest, args = a :: rest /\
                    startswith a "org.mpris.MediaPlayer2." = true) /\
    (MediaPlayers._signal_update args w = (Ok tt, w) <->
     ~ exists a rest, args = a :: rest /\
                      startswith a "org.mpris.MediaPlayer2." = true).
Proof.
  intros args w. unfold MediaPlayers._signal_update.
  destruct args as [|a rest]; simpl.
  - split; split.
    + intros H. symmetry in H. by apply reindex_leaves_a_trace in H.
    + by intros (a & rest & [=] & _).
    + by intros _ (a & rest & [=] & _).
    + done.
  - destruct (startswith a "org.mpris.MediaPlayer2.") eqn:Hpre; split; split.
    + intros _. by exists a, rest.
    + done.
    + intros H. by apply reindex_leaves_a_trace in H.
    + intros H. destruct H. by exists a, rest.
    + intros H. symmetry in H. by apply reindex_leaves_a_trace in H.
    + intros (a' & rest' & [= <- <-] & Ha). congruence.
    + intros _ (a' & rest' & [= <- <-] & Ha). congruence.
    + done.
Qed.


(** ** How the actions end *)

Ltac run_on_helper w :=
  unfold new_events, call_outcome, calls_made, connect_outcome, connect_error,
    bind, print_debug;
  rewrite ?record_run; simpl;
  destruct (session_bus_error (bus w)) as [?msg|]; simpl;
  [ unfold add_events; simpl; rewrite <- ?app_assoc; simpl;
    rewrite ?drop_app_length; by repeat split
  | destruct (get_object_error (bus w) _ _) as [?msg|]; simpl;
    [ unfold add_events; simpl; rewrite <- ?app_assoc; simpl;
      rewrite ?drop_app_length; by repeat split
    | unfold time_time, time_timezone, ret, bind; simpl;
      rewrite remote_run; simpl;
      unfold add_events; simpl; rewrite <- ?app_assoc; simpl;
      rewrite ?drop_app_length;
      destruct (call_error (bus w) _ _ _); by repeat split ] ].

Lemma call_on_helper (helper : M (option Interface)) name_ path i method args w :
  (forall w', helper w' = connect_outcome name_ path i w') ->
  fst ((h <- helper ;; f <- getattr h method ;; f args) w) =
    call_outcome (bus w) name_ path i method args /\
  remote_calls (new_events (h <- helper ;; f <- getattr h method ;; f args) w) =
    calls_made (bus w) name_ path i method args.
Proof.
  intros Hrun. unfold new_events, bind. rewrite Hrun. run_on_helper w.
Qed.

(** X1: [Toggle.activate] sends Hamster the one call [Toggle()] when
    Hamster is reachable and nothing otherwise; it returns normally only if
    that call succeeds, lets the peer's [DBusException] escape, and raises
    [AttributeError] on an unreachable Hamster. *)
Theorem toggle_activate_outcome :
  forall (w : World) (item : Kupfer.AppLeaf),
    fst (Hamster.Toggle.activate item w) =
      call_outcome (bus w) "org.gnome.Hamster" "/org/gnome/Hamster"
                   hamster_iface "Toggle" [] /\
    remote_calls (new_events (Hamster.Toggle.activate item) w) =
      calls_made (bus w) "org.gnome.Hamster" "/org/gnome/Hamster"
                 hamster_iface "Toggle" [].
Proof.
  intros w item. apply call_on_helper, get_hamster_run.
Qed.

(** X2: [StartActivity.activate] and [StopTrackingLeaf.run] return normally
    only when Hamster is reachable and accepts the call; a failure of the
    call itself escapes as the [DBusException] it is, and an unreachable
    Hamster gives [AttributeError]. *)
Theorem hamster_tracking_outcome :
  forall (w : World) (leaf : Kupfer.Leaf),
    fst (Hamster.StartActivity.activate leaf w) =
      call_outcome (bus w) "org.gnome.Hamster" "/org/gnome/Hamster" hamster_iface
                   "AddFact"
                   [AStr (Kupfer.object leaf);
                    AFloat (float_sub_int (clock (bus w)) (timezone (bus w)));
                    AInt 0; ABool false] /\
    fst (Hamster.StopTrackingLeaf.run w) =
      call_outcome (bus w) "org.gnome.Hamster" "/org/gnome/Hamster" hamster_iface
                   "StopTracking"
                   [AFloat (float_sub_int (clock (bus w)) (timezone (bus w)))].
Proof.
  intros w leaf. split.
  - unfold Hamster.StartActivity.activate, bind. rewrite get_hamster_run.
    run_on_helper w.
  - unfold Hamster.StopTrackingLeaf.run, bind. rewrite get_hamster_run.
    run_on_helper w.
Qed.

(** X3: each of the Hotot actions Show, Hide and Quit sends the one call
    [show()], [hide()], respectively [quit()] to a reachable Hotot and
    nothing to an unreachable one, and ends as that call does
    ([AttributeError] when Hotot is unreachable). *)
Theorem hotot_actions_outcome :
  forall (w : World) (leaf : Kupfer.AppLeaf),
    Forall (fun am : Hotot.HototAction * string =>
              fst (Hotot.HototAction.activate (fst am) leaf w) =
                call_outcome (bus w) "org.hotot.service" "/org/hotot/service"
                             hotot_iface (snd am) [] /\
              remote_calls (new_events (Hotot.HototAction.activate (fst am) leaf) w) =
                calls_made (bus w) "org.hotot.service" "/org/hotot/service"
                           hotot_iface (snd am) [])
           [(Hotot.Show, "show"); (Hotot.Hide, "hide"); (Hotot.Quit, "quit")].
Proof.
  intros w leaf.
  repeat constructor; simpl;
    apply (call_on_helper Hotot.get_hotot), get_hotot_run.
Qed.

(** X4: [SendUpdate.activate] prints the text and then the escaped text
    before it connects, so both lines are there whether or not Hotot is
    reachable (followed by the helper's line when it is not); it ends as
    the [update_status] call does. *)
Theorem send_update_outcome :
  forall (w : World) (leaf : Kupfer.Leaf),
    let text := str_replace (Kupfer.object leaf)
                            Hotot.double_quote Hotot.escaped_quote in
    fst (Hotot.SendUpdate.activate leaf w) =
      call_outcome (bus w) "org.hotot.service" "/org/hotot/service" hotot_iface
                   "update_status" [AStr text] /\
    debug_lines (new_events (Hotot.SendUpdate.activate leaf) w) =
      ([ModuleName; Text (Kupfer.object leaf)] ::
       [ModuleName; Text ("SendUpdate: " ++ text)] ::
       match connect_error (bus w) "org.hotot.service" "/org/hotot/service" with
       | Some msg => [[Err (DBusException msg)]]
       | None => []
       end).
Proof.
  intros w leaf text. subst text.
  unfold Hotot.SendUpdate.activate, new_events, bind, print_debug.
  rewrite !record_run, get_hotot_run. run_on_helper w.
Qed.

(** ** What offering an action costs *)

Lemma new_events_none {A} (a : A) w : new_events (ret a) w = [].
Proof. unfold new_events, ret. simpl. apply drop_all. Qed.

Lemma new_events_then_ret {A B} (m : M A) (f : A -> B) w :
  new_events (a <- m ;; ret (f a)) w = new_events m w.
Proof.
  unfold new_events, bind, ret. by destruct (m w) as [[a|e] w'].
Qed.

Lemma helper_reaches name_ path i w :
  fst ((o <- (fun w' => connect_outcome name_ path i w') ;; ret (is_not_None o)) w) =
  Ok (bool_decide (connect_error (bus w) name_ path = None)).
Proof.
  unfold bind, ret, connect_outcome, connect_error.
  destruct (session_bus_error (bus w)); [done|].
  by destruct (get_object_error (bus w) name_ path).
Qed.

(** X5: [valid_for_item] of [Toggle] and of a [HototAction] does nothing
    on the bus for an item that is not the application's (the test of the
    item comes first), and otherwise exactly what the connection helper
    does; [SendUpdate.valid_for_item] always does what [get_hotot] does
    and answers [True] exactly when Hotot is reachable, whatever the
    item. *)
Theorem valid_for_item_bus_traffic :
  forall (w : World) (self : Hotot.HototAction) (item : Kupfer.AppLeaf)
         (leaf : Kupfer.Leaf),
    new_events (Hotot.HototAction.valid_for_item self item) w =
      (if String.eqb (Kupfer.app_name item) "Hotot"
       then new_events Hotot.get_hotot w else []) /\
    new_events (Hamster.Toggle.valid_for_item item) w =
      (if bool_decide (Kupfer.get_id item ∈ Hamster.HAMSTER_APPNAMES)
       then new_events Hamster.get_hamster w else []) /\
    new_events (Hotot.SendUpdate.valid_for_item leaf) w =
      new_events Hotot.get_hotot w /\
    fst (Hotot.SendUpdate.valid_for_item leaf w) =
      Ok (bool_decide
            (connect_error (bus w) "org.hotot.service" "/org/hotot/service" = None)).
Proof.
  intros w self item leaf. repeat split.
  - unfold Hotot.HototAction.valid_for_item.
    destruct (String.eqb _ _); [apply new_events_then_ret|apply new_events_none].
  - unfold Hamster.Toggle.valid_for_item.
    case_bool_decide; [apply new_events_then_ret|apply new_events_none].
  - apply new_events_then_ret.
  - unfold Hotot.SendUpdate.valid_for_item.
    rewrite <- (helper_reaches _ _ hotot_iface). unfold bind.
    by rewrite get_hotot_run.
Qed.

(** ** Looking a player up *)


(** ** What the rescan does on the bus *)

Ltac rescan_events_ok :=
  repeat (apply List.Forall_cons;
          [simpl; first [exact I | by left | by right | right; by eexists]|]);
  apply List.Forall_nil.

Ltac close_trace :=
  eexists; split;
  [ unfold advance, add_events, record; simpl; rewrite <- ?app_assoc; reflexivity
  | rescan_events_ok ].

Lemma register_trace n w :
  n ∈ list_names (bus w) ->
  exists evs,
    MediaPlayers.register n w =
    (fst (scan (bus w) [n] (active_players w)),
     advance w evs (snd (scan (bus w) [n] (active_players w)))) /\
    Forall (rescan_event (bus w)) evs.
Proof.
  intros Hn. unfold MediaPlayers.register. cbn [scan].
  destruct (startswith n "org.mpris.MediaPlayer2.") eqn:Hpre.
  - unfold bind, print_debug. rewrite record_run, get_object_run. simpl.
    destruct (get_object_error (bus w) n _) as [msg|]; [close_trace|].
    change {| _dbus_obj := {| bus_name := n; object_path := "/org/mpris/MediaPlayer2" |} |}
      with (player_at n).
    rewrite name_run. simpl.
    destruct (name_error (bus w) n) as [msg|] eqn:Hname; [close_trace|].
    simpl. rewrite name_run. simpl. rewrite Hname. close_trace.
  - exists []. simpl. by rewrite advance_same.
Qed.

Lemma for_each_register_trace names w :
  (forall n, n ∈ names -> n ∈ list_names (bus w)) ->
  exists evs,
    for_each names MediaPlayers.register w =
    (fst (scan (bus w) names (active_players w)),
     advance w evs (snd (scan (bus w) names (active_players w)))) /\
    Forall (rescan_event (bus w)) evs.
Proof.
  revert w. induction names as [|n rest IH]; intros w Hnames.
  - exists []. simpl. by rewrite advance_same.
  - cbn [for_each]. unfold bind.
    destruct (register_trace n w) as (evs & -> & Hevs); [apply Hnames; by left|].
    rewrite (scan_cons _ n rest).
    destruct (scan (bus w) [n] (active_players w)) as [[[]|e] tbl1]; cbn [fst snd].
    + destruct (IH (advance w evs tbl1)) as (evs' & -> & Hevs').
      { intros n' Hn'. apply Hnames. by right. }
      simpl. exists (evs ++ evs')%list. rewrite advance_advance.
      split; [done|]. by apply Forall_app.
    + by exists evs.
Qed.

Lemma reindex_trace w :
  exists evs,
    MediaPlayers.reindex w =
    (fst (rescan (bus w)), advance w evs (snd (rescan (bus w)))) /\
    Forall (rescan_event (bus w)) evs.
Proof.
  unfold MediaPlayers.reindex, rescan, list_error, connect_error, bind.
  unfold MediaPlayers.set_active_players at 1. rewrite SessionBus_run. simpl.
  destruct (session_bus_error (bus w)) as [msg|]; [close_trace|].
  rewrite get_object_run. simpl.
  destruct (get_object_error (bus w) _ _) as [msg|]; [close_trace|].
  unfold MediaPlayers.ListNames, reply_of, bind. rewrite remote_run. simpl.
  destruct (call_error (bus w) _ _ _) as [msg|]; [close_trace|].
  match goal with |- context [for_each _ _ ?w1] =>
    destruct (for_each_register_trace (list_names (bus w)) w1) as (evs & -> & Hevs);
    [done|] end.
  simpl in Hevs. eexists. split.
  - unfold advance. simpl. rewrite <- !app_assoc. reflexivity.
  - simpl. repeat (apply List.Forall_cons; [simpl; first [exact I | by left]|]).
    exact Hevs.
Qed.

(** X7: whatever the bus holds, a rescan only connects to the session
    bus, looks up the bus daemon and the MPRIS objects of listed names
    that start with ['org.mpris.MediaPlayer2.'], calls [ListNames] and
    reads the [DesktopEntry] of those objects, and prints; it contacts no
    other name, sends no player command and connects no signal. *)
Theorem reindex_only_reads :
  forall w : World,
    Forall (rescan_event (bus w)) (new_events MediaPlayers.reindex w) /\
    bus (snd (MediaPlayers.reindex w)) = bus w.
Proof.
  intros w. destruct (reindex_trace w) as (evs & Hrun & Hevs).
  unfold new_events. rewrite Hrun. simpl. by rewrite drop_app_length.
Qed.

(** ** Starting the registry *)

Lemma rescan_events_connect_no_signal b evs :
  Forall (rescan_event b) evs -> signal_connections evs = [].
Proof.
  induction 1 as [|e evs He _ IH]; [done|].
  destruct e; simpl in *; done.
Qed.

Lemma signal_connections_app evs evs' :
  signal_connections (evs ++ evs') = (signal_connections evs ++ signal_connections evs')%list.
Proof. unfold signal_connections. apply flat_map_app. Qed.

Lemma rescan_ok_connected b : fst (rescan b) = Ok tt -> session_bus_error b = None.
Proof.
  unfold rescan, list_error, connect_error.
  by destruct (session_bus_error b).
Qed.

(** X8: creating the registry rescans first and connects the
    [NameOwnerChanged] handler afterwards: the handler is connected, once,
    exactly when the rescan returned normally; when the rescan raises,
    [__init__] raises the same and no handler is connected.  The table is
    the rescan's in both cases. *)
Theorem registry_init_monitors_after_rescan :
  forall w : World,
    fst (MediaPlayers.__init__ w) = fst (MediaPlayers.reindex w) /\
    active_players (snd (MediaPlayers.__init__ w)) =
      active_players (snd (MediaPlayers.reindex w)) /\
    signal_connections (new_events MediaPlayers.__init__ w) =
      match fst (MediaPlayers.reindex w) with
      | Ok _ => [("NameOwnerChanged", "org.freedesktop.DBus")]
      | Raise _ => []
      end.
Proof.
  intros w. destruct (reindex_trace w) as (evs & Hrun & Hevs).
  apply rescan_events_connect_no_signal in Hevs.
  unfold MediaPlayers.__init__, new_events, bind. rewrite Hrun. simpl.
  destruct (fst (rescan (bus w))) as [[]|e] eqn:Hres.
  - unfold MediaPlayers._setup_monitor, MediaPlayers.dbus_Bus, bind.
    rewrite SessionBus_run. simpl. rewrite (rescan_ok_connected _ Hres). simpl.
    repeat split. rewrite <- !app_assoc, drop_app_length.
    by rewrite signal_connections_app, Hevs.
  - simpl. repeat split. by rewrite drop_app_length.
Qed.

(** ** Rescanning again, and rescans that fail *)

(** X9: a second rescan on an unchanged bus ends as the first did and
    leaves the same table. *)
Theorem reindex_twice :
  forall w : World,
    fst (MediaPlayers.reindex (snd (MediaPlayers.reindex w))) =
      fst (MediaPlayers.reindex w) /\
    active_players (snd (MediaPlayers.reindex (snd (MediaPlayers.reindex w)))) =
      active_players (snd (MediaPlayers.reindex w)).
Proof.
  intros w. destruct (reindex_run w) as [evs ->]. simpl.
  by destruct (reindex_run (advance w (EvSessionBus :: evs) (snd (rescan (bus w)))))
    as [evs' ->].
Qed.

(** X10: when the session bus, the bus daemon or [ListNames] fails, the
    rescan raises that [DBusException] and leaves the table empty,
    whatever it held before. *)
Theorem reindex_listing_failure_empties :
  forall (w : World) (msg : string),
    list_error (bus w) = Some msg ->
    fst (MediaPlayers.reindex w) = Raise (DBusException msg) /\
    active_players (snd (MediaPlayers.reindex w)) = ∅.
Proof.
  intros w msg Herr. destruct (reindex_run w) as [evs ->]. simpl.
  unfold rescan. by rewrite Herr.
Qed.

Lemma reindex_listing_failure_empties_witness :
  fst (MediaPlayers.reindex
         (with_table (world_of deserted_bus)
                     {[ "vlc" := player_at "org.mpris.MediaPlayer2.vlc" ]})) =
    Raise (DBusException "org.freedesktop.DBus.Error.ServiceUnknown") /\
  active_players
    (snd (MediaPlayers.reindex
            (with_table (world_of deserted_bus)
                        {[ "vlc" := player_at "org.mpris.MediaPlayer2.vlc" ]}))) = ∅.
Proof.
  apply (reindex_listing_failure_empties
           (with_table (world_of deserted_bus)
                       {[ "vlc" := player_at "org.mpris.MediaPlayer2.vlc" ]})).
  reflexivity.
Defined.




(** ** From a notification to the offered actions *)

Lemma foldl_put_keys (l : list (string * MediaPlayer)) k :
  is_Some (foldl put ∅ l !! k) <-> k ∈ l.*1.
Proof.
  split.
  - intros [p Hp]. apply foldl_put_lookup in Hp as (l1 & l2 & -> & _).
    rewrite fmap_app, fmap_cons. apply elem_of_app. right. by left.
  - intros Hk. destruct (last_occurrence l k Hk) as (l1 & p & l2 & -> & Hl2).
    exists p. by apply foldl_put_last.
Qed.

(** X12: after [_signal_update] for a name that starts with
    ['org.mpris.MediaPlayer2.'], every entry of the table is a player whose
    bus name is listed now and starts with that prefix, under the name it
    reports now: entries of players that left the bus are gone. *)
Theorem signal_update_forgets_departed :
  forall (w : World) (a : string) (rest : list string) (k : string) (p : MediaPlayer),
    startswith a "org.mpris.MediaPlayer2." = true ->
    active_players (snd (MediaPlayers._signal_update (a :: rest) w)) !! k = Some p ->
    exists n, n ∈ list_names (bus w) /\
              startswith n "org.mpris.MediaPlayer2." = true /\
              p = player_at n /\ k = desktop_entry (bus w) p.
Proof.
  intros w a rest k p Ha. unfold MediaPlayers._signal_update. simpl. rewrite Ha.
  destruct (reindex_run w) as [evs ->]. simpl. unfold rescan.
  destruct (list_error (bus w)); simpl; [by rewrite lookup_empty|].
  intros H. apply scan_entries in H as [H|H]; [|done].
  by rewrite lookup_empty in H.
Qed.

Lemma signal_update_forgets_departed_witness :
  exists n, n ∈ list_names two_players_bus /\
            startswith n "org.mpris.MediaPlayer2." = true /\
            player_at "org.mpris.MediaPlayer2.mpv" = player_at n /\
            "mpv" = desktop_entry two_players_bus (player_at "org.mpris.MediaPlayer2.mpv").
Proof.
  apply (signal_update_forgets_departed
           (with_table (world_of two_players_bus)
                       {[ "gone" := player_at "org.mpris.MediaPlayer2.gone" ]})
           "org.mpris.MediaPlayer2.gone" [":1.7"; ""] "mpv"
           (player_at "org.mpris.MediaPlayer2.mpv")).
  - reflexivity.
  - vm_compute. reflexivity.
Defined.

(** X13: after a rescan in which no bus operation fails, the action
    generator offers, for a command leaf, one action per distinct name
    the players with prefixed bus names report: the action names are
    those names, each once, and every action holds such a player, the one
    that reports the action's name. *)
Theorem actions_after_rescan :
  forall (w : World) (c : MediaPlayers.MediaPlayerCommandLeaf),
    scan_error_free (bus w) ->
    exists acts,
      MediaPlayers.MediaPlayersGenerator.get_actions_for_leaf
        (MediaPlayers.CommandLeaf c) (snd (MediaPlayers.reindex w)) =
        (Ok acts, snd (MediaPlayers.reindex w)) /\
      NoDup (map MediaPlayers.action_name acts) /\
      (forall k, k ∈ map MediaPlayers.action_name acts <-> k ∈ (discovered (bus w)).*1) /\
      Forall (fun a => (MediaPlayers.action_name a, MediaPlayers._player a)
                       ∈ discovered (bus w)) acts.
Proof.
  intros w c [Hlist Hall].
  destruct (reindex_run w) as [evs Hrun]. rewrite Hrun. simpl.
  unfold rescan. rewrite Hlist. rewrite scan_error_free_run by done. simpl.
  fold (mpris_names (bus w)). fold (discovered (bus w)).
  set (w' := advance w (EvSessionBus :: evs) (foldl put ∅ (discovered (bus w)))).
  destruct (actions_for_keys w' (map_to_list (active_players w')).*1)
    as (acts & Hacts & Hnames & Hheld).
  { intros n. apply players_keys. }
  exists acts. split; [|split; [|split]].
  - unfold MediaPlayers.MediaPlayersGenerator.get_actions_for_leaf, bind.
    unfold MediaPlayers.players at 1. apply Hacts.
  - rewrite Hnames. apply NoDup_fst_map_to_list.
  - intros k. rewrite Hnames, players_keys. apply foldl_put_keys.
  - eapply Forall_impl; [exact Hheld|]. intros a Ha. simpl in Ha.
    apply foldl_put_lookup in Ha as (l1 & l2 & -> & _).
    apply elem_of_app. right. by left.
Qed.

Lemma actions_after_rescan_witness :
  exists acts,
    MediaPlayers.MediaPlayersGenerator.get_actions_for_leaf
      (MediaPlayers.CommandLeaf MediaPlayers.Next)
      (snd (MediaPlayers.reindex (world_of two_players_bus))) =
      (Ok acts, snd (MediaPlayers.reindex (world_of two_players_bus))) /\
    NoDup (map MediaPlayers.action_name acts) /\
    (forall k, k ∈ map MediaPlayers.action_name acts <->
               k ∈ (discovered two_players_bus).*1) /\
    Forall (fun a => (MediaPlayers.action_name a, MediaPlayers._player a)
                     ∈ discovered two_players_bus) acts.
Proof.
  apply (actions_after_rescan (world_of two_players_bus) MediaPlayers.Next).
  split; [reflexivity|]. simpl. by repeat constructor.
Defined.

(** ** Running a command on a player *)

Lemma name_run_any p w :
  MediaPlayers.name p w =
  (match call_error (bus w) (properties_of (_dbus_obj p)) "Get"
                    [AStr "org.mpris.MediaPlayer2"; AStr "DesktopEntry"] with
   | Some msg => Raise (DBusException msg)
   | None => Ok (desktop_entry (bus w) p)
   end,
   add_events w [EvCall (properties_of (_dbus_obj p)) "Get"
                        [AStr "org.mpris.MediaPlayer2"; AStr "DesktopEntry"]]).
Proof.
  unfold MediaPlayers.name, MediaPlayers.get_root_property,
    MediaPlayers._get_property, reply_of, bind.
  rewrite remote_run. unfold properties_of.
  by destruct (call_error (bus w) _ _ _).
Qed.

(** X14: [MediaPlayerAction.activate] first reads the player's name for
    its debug line and only then runs the leaf's command.  When reading the
    name fails, that [DBusException] escapes and the command is not sent;
    otherwise one line is printed and the action ends as the command does,
    the command's call following the read. *)
Theorem action_activate_reads_name_first :
  forall (w : World) (self : MediaPlayers.MediaPlayerAction)
         (leaf : MediaPlayers.MediaPlayerCommandLeaf),
    let p := MediaPlayers._player self in
    let read := (properties_of (_dbus_obj p), "Get",
                 [AStr "org.mpris.MediaPlayer2"; AStr "DesktopEntry"]) in
    match call_error (bus w) (properties_of (_dbus_obj p)) "Get"
                     [AStr "org.mpris.MediaPlayer2"; AStr "DesktopEntry"] with
    | Some msg =>
        fst (MediaPlayers.MediaPlayerAction.activate self leaf w) =
          Raise (DBusException msg) /\
        remote_calls (new_events (MediaPlayers.MediaPlayerAction.activate self leaf) w) =
          [read] /\
        debug_lines (new_events (MediaPlayers.MediaPlayerAction.activate self leaf) w) = []
    | None =>
        fst (MediaPlayers.MediaPlayerAction.activate self leaf w) =
          fst (MediaPlayers.do_command leaf p w) /\
        remote_calls (new_events (MediaPlayers.MediaPlayerAction.activate self leaf) w) =
          read :: remote_calls (new_events (MediaPlayers.do_command leaf p) w) /\
        debug_lines (new_events (MediaPlayers.MediaPlayerAction.activate self leaf) w) =
          [[ModuleName; Text ("activating for " ++ desktop_entry (bus w) p)]]
    end.
Proof.
  intros w self leaf p read. subst p read.
  unfold new_events, MediaPlayers.MediaPlayerAction.activate, bind.
  rewrite name_run_any.
  destruct (call_error (bus w) _ _ _) as [msg|].
  - simpl. by rewrite drop_app_length.
  - destruct leaf; unfold print_debug, record, raise; simpl;
      rewrite ?remote_run; simpl; unfold add_events; simpl;
      rewrite <- ?app_assoc, ?drop_app_length, ?drop_all; simpl;
      repeat split; reflexivity.
Qed.

(** ** The escaped text *)

Lemma escape_quotes_head s r : escape_quotes s <> String "034" r.
Proof.
  destruct s as [|c s]; simpl; [done|].
  destruct (Ascii.eqb_spec c "034") as [->|Hc]; [done|]. congruence.
Qed.

Lemma escape_quotes_guarded s (l1 l2 : list ascii) :
  list_ascii_of_string (escape_quotes s) = (l1 ++ "034"%char :: l2)%list ->
  exists l0, l1 = (l0 ++ ["092"%char])%list.
Proof.
  revert l1. induction s as [|c s IH]; intros l1; simpl.
  - by destruct l1.
  - destruct (Ascii.eqb_spec c "034") as [->|Hc]; simpl.
    + destruct l1 as [|a [|b l1]]; simpl; intros H.
      * discriminate H.
      * injection H as <- _. by exists [].
      * injection H as <- <- H. destruct (IH l1 H) as [l0 ->].
        by exists ("092"%char :: "034"%char :: l0).
    + destruct l1 as [|a l1]; simpl; intros H.
      * injection H as -> _. done.
      * injection H as <- H. destruct (IH l1 H) as [l0 ->]. by exists (c :: l0).
Qed.

Lemma escape_quotes_inj s1 s2 : escape_quotes s1 = escape_quotes s2 -> s1 = s2.
Proof.
  revert s2. induction s1 as [|c1 s1 IH]; intros [|c2 s2]; simpl.
  - done.
  - by destruct (Ascii.eqb c2 "034").
  - by destruct (Ascii.eqb c1 "034").
  - destruct (Ascii.eqb_spec c1 "034") as [->|H1],
             (Ascii.eqb_spec c2 "034") as [->|H2].
    + intros [= H]. by rewrite (IH _ H).
    + intros [= <- H]. symmetry in H. by apply escape_quotes_head in H.
    + intros [= -> H]. by apply escape_quotes_head in H.
    + intros [= -> H]. by rewrite (IH _ H).
Qed.

(** X15: in the text [SendUpdate.activate] forwards, every double quote
    comes right after a backslash. *)
Theorem forwarded_quotes_follow_backslash :
  forall (s : string) (l1 l2 : list ascii),
    list_ascii_of_string (str_replace s Hotot.double_quote Hotot.escaped_quote) =
      (l1 ++ "034"%char :: l2)%list ->
    exists l0, l1 = (l0 ++ ["092"%char])%list.
Proof.
  intros s l1 l2. rewrite str_replace_quotes. apply escape_quotes_guarded.
Qed.

Lemma forwarded_quotes_follow_backslash_witness :
  exists l0,
    list_ascii_of_string ("say " ++ String "092" EmptyString) = (l0 ++ ["092"%char])%list.
Proof.
  apply (forwarded_quotes_follow_backslash quoted_text
           (list_ascii_of_string ("say " ++ String "092" EmptyString))
           (list_ascii_of_string ("hi" ++ String "092" (String "034" EmptyString)))).
  reflexivity.
Defined.

(** X16: the escaping loses nothing: two texts are forwarded as the same
    argument only if they are the same text. *)
Theorem forwarded_text_determines_text :
  forall s1 s2 : string,
    str_replace s1 Hotot.double_quote Hotot.escaped_quote =
    str_replace s2 Hotot.double_quote Hotot.escaped_quote <->
    s1 = s2.
Proof.
  intros s1 s2. rewrite !str_replace_quotes. split.
  - apply escape_quotes_inj.
  - by intros ->.
Qed.

(** ** Listing the activities *)

(** X17: [ActivitiesSource.get_items] asks a reachable Hamster once, with
    [GetActivities('')], and nothing else; a failure of that call escapes
    as the [DBusException] it is, an unreachable Hamster gives
    [AttributeError], and otherwise the leaves are those of the reply, none
    for an empty reply. *)
Theorem activities_get_items_outcome :
  forall w : World,
    fst (Hamster.ActivitiesSource.get_items w) =
      match call_outcome (bus w) "org.gnome.Hamster" "/org/gnome/Hamster"
                         hamster_iface "GetActivities" [AStr ""] with
      | Ok _ => Ok (map Hamster.ActivitiesSource.leaf_of (activities (bus w)))
      | Raise e => Raise e
      end /\
    remote_calls (new_events Hamster.ActivitiesSource.get_items w) =
      calls_made (bus w) "org.gnome.Hamster" "/org/gnome/Hamster"
                 hamster_iface "GetActivities" [AStr ""] /\
    (activities (bus w) = [] ->
     forall leaves, fst (Hamster.ActivitiesSource.get_items w) = Ok leaves ->
                    leaves = []).
Proof.
  intros w.
  assert (Hfst : fst (Hamster.ActivitiesSource.get_items w) =
                 match call_outcome (bus w) "org.gnome.Hamster" "/org/gnome/Hamster"
                                    hamster_iface "GetActivities" [AStr ""] with
                 | Ok _ => Ok (map Hamster.ActivitiesSource.leaf_of (activities (bus w)))
                 | Raise e => Raise e
                 end).
  { unfold Hamster.ActivitiesSource.get_items, reply_of, bind.
    rewrite get_hamster_run.
    unfold call_outcome, connect_outcome, connect_error.
    destruct (session_bus_error (bus w)); [done|].
    destruct (get_object_error (bus w) _ _); [done|].
    simpl. rewrite remote_run. simpl.
    by destruct (call_error (bus w) _ _ _). }
  split; [exact Hfst|]. split.
  - unfold Hamster.ActivitiesSource.get_items, reply_of, new_events, bind.
    rewrite get_hamster_run.
    unfold calls_made, connect_outcome, connect_error.
    destruct (session_bus_error (bus w)); simpl;
      [unfold add_events; simpl; by rewrite drop_app_length|].
    destruct (get_object_error (bus w) _ _); simpl;
      [unfold add_events; simpl; by rewrite drop_app_length|].
    rewrite remote_run. simpl.
    destruct (call_error (bus w) _ _ _); simpl; unfold add_events; simpl;
      by rewrite <- app_assoc, drop_app_length.
  - intros Hempty leaves. rewrite Hfst, Hempty.
    destruct (call_outcome _ _ _ _ _ _); [by intros [= <-]|done].
Qed.
